(** * Titan runtime core (src/runtime/tcore.c): the boundary checks

    The functions of tcore.c are called by generated code around every
    dynamic operation: they name type tags, raise the diagnostics of the
    runtime, and guard (and grow) the array part of a table.

    The embedding follows the C text.  A function that takes
    [lua_State *L, Table *t] becomes an action of the monad [M], whose state
    holds the table [t] points to and the list of host services called so
    far; [luaL_error] does not return, so an action ends in [Returns] or in
    [Raises msg].  The services of the Lua host that tcore.c calls but does
    not define are the fields of the class [LuaHost]. *)

From Stdlib Require Import ZArith NArith Lia String Ascii List.
From stdpp Require Import base gmap strings pretty.
Import ListNotations.
Open Scope string_scope.

(** ** Values and tables *)

(** A [TValue]: the raw type tag [tt_] and the payload. *)
Record TValue : Type := mkTValue { tt_ : Z; value_ : Z }.

(** [rawtt(o)] reads the raw tag of a slot. *)
Definition rawtt (o : TValue) : Z := tt_ o.

(** A [Table]: [sizearray] is the [unsigned int] size of the array part,
    [array] the slots it points to (slot [i] holds the value of key [i+1]),
    [node] the hash part, of which only the integer keys matter here. *)
Record Table : Type := mkTable {
  sizearray : N;
  array : N -> TValue;
  node : gmap Z TValue
}.

(** ** The host *)

(** What tcore.c takes from the Lua headers and from ltable.c.  None of it
    is defined in tcore.c, so the checks are stated for every host. *)
Class LuaHost : Type := mkLuaHost {
  (** bit width of [unsigned int] *)
  uint_bits : N;
  (** the two numeric variant tags of lobject.h *)
  LUA_TNUMINT : Z;
  LUA_TNUMFLT : Z;
  (** [novariant(t)]: the tag without its variant bits *)
  novariant : Z -> Z;
  (** [ttypename(t)]: the host's name of a basic type *)
  ttypename : Z -> string;
  (** [isempty(o)]: the slot holds no value *)
  isempty : TValue -> bool;
  (** what [luaH_titan_normalize_table(L, t)] makes of the table *)
  host_normalize_table : Table -> Table;
  (** what [luaH_resizearray(L, t, nasize)] makes of the table *)
  host_resizearray : Table -> N -> Table
}.

(** A service of the host, as tcore.c calls it. *)
Inductive HostCall : Type :=
  | CallNormalize
  | CallResize (nasize : N)
  | CallError (msg : string).

(** The requests for a new array size among a list of host calls. *)
Fixpoint resize_requests (cs : list HostCall) : list N :=
  match cs with
  | [] => []
  | CallResize n :: cs' => n :: resize_requests cs'
  | _ :: cs' => resize_requests cs'
  end.

(** ** Outcomes and the monad of the runtime *)

Inductive outcome (A : Type) : Type :=
  | Returns (a : A)
  | Raises (msg : string).
Arguments Returns {A} a.
Arguments Raises {A} msg.

(** Whether a call came back to its caller. *)
Definition returned {A : Type} (o : outcome A) : bool :=
  match o with Returns _ => true | Raises _ => false end.

(** The state of a run: the table behind [Table *t], and the services of
    the host called so far, oldest first. *)
Record State : Type := mkState {
  the_table : Table;
  host_calls : list HostCall
}.

Definition M (A : Type) : Type := State -> outcome A * State.

#[global] Instance M_ret : MRet M := fun A a s => (Returns a, s).

#[global] Instance M_bind : MBind M := fun A B f m s =>
  match m s with
  | (Returns a, s') => f a s'
  | (Raises msg, s') => (Raises msg, s')
  end.

(** [if (b) { m }] *)
Definition when (b : bool) (m : M unit) : M unit :=
  if b then m else mret tt.

Definition called (c : HostCall) (s : State) : State :=
  {| the_table := the_table s; host_calls := host_calls s ++ [c] |}.

(** [t->sizearray] *)
Definition get_sizearray : M N := fun s => (Returns (sizearray (the_table s)), s).

(** ** Messages *)

(** An argument of a format: [%d] takes an [int], [%s] a string. *)
Inductive fmt_arg : Type :=
  | FInt (z : Z)
  | FStr (s : string).

(** The expansion of a format by the host ([lua_pushvfstring] under
    [luaL_error]): [%d] prints an [int] in decimal, [%s] copies a string,
    [%%] is a percent sign.  tcore.c uses [%d] and [%s] only; any other
    directive is copied as it stands. *)
Fixpoint lua_pushvfstring (fmt : string) (argp : list fmt_arg) : string :=
  match fmt with
  | EmptyString => EmptyString
  | String c rest =>
      if Ascii.eqb c "%" then
        match rest with
        | EmptyString => String c EmptyString
        | String d rest' =>
            if Ascii.eqb d "d" then
              match argp with
              | FInt z :: argp' => pretty z ++ lua_pushvfstring rest' argp'
              | _ => String c (String d (lua_pushvfstring rest' argp))
              end
            else if Ascii.eqb d "s" then
              match argp with
              | FStr s :: argp' => s ++ lua_pushvfstring rest' argp'
              | _ => String c (String d (lua_pushvfstring rest' argp))
              end
            else if Ascii.eqb d "%" then
              String "%" (lua_pushvfstring rest' argp)
            else String c (String d (lua_pushvfstring rest' argp))
        end
      else String c (lua_pushvfstring rest argp)
  end.

(** [luaL_error(L, fmt, ...)]: raise the formatted message; control does not
    come back.  (The position that the host puts in front of the message is
    empty when the caller is a C function, as generated code is.) *)
Definition luaL_error (fmt : string) (argp : list fmt_arg) : M unit :=
  fun s =>
    let msg := lua_pushvfstring fmt argp in
    (Raises msg, called (CallError msg) s).

Section Tcore.
Context `{H : LuaHost}.

(** [unsigned int] multiplication: the product modulo [2^uint_bits]. *)
Definition uint_mul (a b : N) : N := ((a * b) mod 2 ^ uint_bits)%N.

(** [luaH_titan_normalize_table(L, t)] *)
Definition luaH_titan_normalize_table : M unit :=
  fun s =>
    (Returns tt,
     called CallNormalize
       {| the_table := host_normalize_table (the_table s);
          host_calls := host_calls s |}).

(** [luaH_resizearray(L, t, nasize)] *)
Definition luaH_resizearray (nasize : N) : M unit :=
  fun s =>
    (Returns tt,
     called (CallResize nasize)
       {| the_table := host_resizearray (the_table s) nasize;
          host_calls := host_calls s |}).

(** ** tcore.c *)

Definition titan_tag_name (raw_tag : Z) : string :=
  if (raw_tag =? LUA_TNUMINT)%Z then "integer"
  else if (raw_tag =? LUA_TNUMFLT)%Z then "float"
  else ttypename (novariant raw_tag).

Definition titan_runtime_arity_error (expected received : Z) : M unit :=
  luaL_error
    "wrong number of arguments to function, expected %d but received %d"
    [FInt expected; FInt received].

Definition titan_runtime_argument_type_error
    (param_name : string) (line expected_tag : Z) (slot : TValue) : M unit :=
  let expected_type := titan_tag_name expected_tag in
  let received_type := titan_tag_name (rawtt slot) in
  luaL_error
    "wrong type for argument %s at line %d, expected %s but found %s"
    [FStr param_name; FInt line; FStr expected_type; FStr received_type].

Definition titan_runtime_array_bounds_error (line col : Z) : M unit :=
  luaL_error
    "out of bounds (outside array part) at line %d, col %d"
    [FInt line; FInt col].

(** [ui] is a [lua_Unsigned] and [asize] an [unsigned int]: the comparisons
    are made in the wider type and compare the two values.  [ui >= asize] is
    written [asize <=? ui], [ui > asize] is [asize <? ui]. *)
Definition titan_runtime_array_out_of_bounds_read
    (ui : N) (line col : Z) : M unit :=
  luaH_titan_normalize_table;;
  asize ← get_sizearray;
  when (asize <=? ui)%N (titan_runtime_array_bounds_error line col).

Definition titan_runtime_array_out_of_bounds_write
    (ui : N) (line col : Z) : M unit :=
  luaH_titan_normalize_table;;
  asize ← get_sizearray;
  when (asize <? ui)%N (titan_runtime_array_bounds_error line col);;
  when (ui =? asize)%N
    (let asize := if (asize =? 0)%N then 1%N else uint_mul 2 asize in
     luaH_resizearray asize).

Definition titan_runtime_array_type_error
    (line expected_tag : Z) (slot : TValue) : M unit :=
  if isempty slot then
    luaL_error "out of bounds (inside array part) at line %d" [FInt line]
  else
    let expected_type := titan_tag_name expected_tag in
    let received_type := titan_tag_name (rawtt slot) in
    luaL_error
      "wrong type for array element at line %d, expected %s but found %s"
      [FInt line; FStr expected_type; FStr received_type].

Definition titan_runtime_function_return_error
    (line expected_tag : Z) (slot : TValue) : M unit :=
  let expected_type := titan_tag_name expected_tag in
  let received_type := titan_tag_name (rawtt slot) in
  luaL_error
    "wrong type for function result at line %d, expected %s but found %s"
    [FInt line; FStr expected_type; FStr received_type].

End Tcore.

(** ** Generated code around the write check *)

Definition set_slot (a : N -> TValue) (i : N) (v : TValue) : N -> TValue :=
  fun j => if (j =? i)%N then v else a j.

(** Modelled from the spec: the slot store of generated code, which is not
    part of tcore.c.  After the write-bounds check has returned, generated
    code writes the value into slot [ui] of the array part ("writing index 3
    with a float value"); nothing else of the table changes. *)
Definition store_slot (ui : N) (v : TValue) : M unit :=
  fun s =>
    let t := the_table s in
    (Returns tt,
     {| the_table :=
          {| sizearray := sizearray t;
             array := set_slot (array t) ui v;
             node := node t |};
        host_calls := host_calls s |}).

(** Modelled from the spec: "sequential appends at indices 0,1,2,3,...".
    Each append is the write-bounds check at the next index followed by the
    slot store; the result lists the size of the array part after each
    append. *)
Fixpoint appends `{H : LuaHost}
    (ui : N) (line col : Z) (vs : list TValue) : M (list N) :=
  match vs with
  | [] => mret []
  | v :: vs' =>
      titan_runtime_array_out_of_bounds_write ui line col;;
      store_slot ui v;;
      cap ← get_sizearray;
      caps ← appends (ui + 1) line col vs';
      mret (cap :: caps)
  end.

(** ** What the spec asks of the host *)

(** Modelled from the spec: the contract of [luaH_resizearray], which lives
    in the host's ltable.c: "grow-array-capacity, taking a table and a target
    capacity, preserving existing slots".  The array part has the requested
    size afterwards, every slot below the old and the new size keeps its
    value, and growing leaves the hash part alone. *)
Record ResizeContract `{H : LuaHost} : Prop := mkResizeContract {
  resize_sizearray :
    forall t n, sizearray (host_resizearray t n) = n;
  resize_array :
    forall t n i, (i < sizearray t)%N -> (i < n)%N ->
      array (host_resizearray t n) i = array t i;
  resize_node :
    forall t n, (sizearray t <= n)%N ->
      node (host_resizearray t n) = node t
}.

(** A table that normalization leaves as it is. *)
Definition normalized `{H : LuaHost} (t : Table) : Prop :=
  host_normalize_table t = t.

(** Modelled from the spec: normalization moves integer keys "sitting in the
    hash region" into the array region, so a table whose hash part is empty
    is normalized. *)
Definition HashFreeNormalized `{H : LuaHost} : Prop :=
  forall t, node t = ∅ -> normalized t.

(** The least power of two that is at least [k] (for [1 <= k]). *)
Definition pow2_ceil (k : N) : N := (2 ^ N.log2_up k)%N.

(** ** A reference host

    One host to run the checks on: tags, type names and the empty slot as in
    Lua 5.3 (number is tag 3, its integer variant 19; a slot is empty when
    its basic type is nil), and the two services of ltable.c modelled from
    the spec. *)

(** The basic type names ([luaT_typenames_], indexed by tag + 1). *)
Definition ref_typenames : list string :=
  ["no value"; "nil"; "boolean"; "userdata"; "number"; "string"; "table";
   "function"; "userdata"; "thread"; "proto"].

Definition ref_novariant (t : Z) : Z := Z.land t 15.

Definition ref_ttypename (t : Z) : string :=
  nth (Z.to_nat (t + 1)) ref_typenames "?".

Definition ref_isempty (o : TValue) : bool := (ref_novariant (tt_ o) =? 0)%Z.

(** The empty slot (tag nil). *)
Definition ref_empty : TValue := mkTValue 0 0.

(** Modelled from the spec: [luaH_titan_normalize_table] of the host's
    ltable.c.  "Any contiguous run of integer keys sitting in the hash region
    must be folded into the array region so size reflects the true logical
    array length": while the hash part holds the key that follows the array
    part (key [sizearray + 1], slot [sizearray]), that entry moves to the
    array part. *)
Fixpoint fold_run (fuel : nat) (t : Table) : Table :=
  match fuel with
  | O => t
  | S fuel' =>
      let k := (Z.of_N (sizearray t) + 1)%Z in
      match node t !! k with
      | Some v =>
          fold_run fuel'
            {| sizearray := sizearray t + 1;
               array := set_slot (array t) (sizearray t) v;
               node := delete k (node t) |}
      | None => t
      end
  end.

Definition ref_normalize_table (t : Table) : Table :=
  fold_run (size (node t)) t.

(** Modelled from the spec: [luaH_resizearray] of the host's ltable.c,
    "grow-array-capacity, taking a table and a target capacity, preserving
    existing slots": the array part gets the requested size, the slots it
    keeps hold what they held, the others are empty. *)
Definition ref_resizearray (t : Table) (nasize : N) : Table :=
  {| sizearray := nasize;
     array := fun i =>
       if (i <? N.min (sizearray t) nasize)%N then array t i else ref_empty;
     node := node t |}.

(** The reference host, with a 32-bit [unsigned int]. *)
Definition ref_host : LuaHost :=
  {| uint_bits := 32;
     LUA_TNUMINT := 19;
     LUA_TNUMFLT := 3;
     novariant := ref_novariant;
     ttypename := ref_ttypename;
     isempty := ref_isempty;
     host_normalize_table := ref_normalize_table;
     host_resizearray := ref_resizearray |}.

(** A table whose array part has [n] empty slots and whose hash part is
    empty. *)
Definition blank_table (n : N) : Table :=
  {| sizearray := n; array := fun _ => ref_empty; node := ∅ |}.

(** A table whose array part holds the given values, with an empty hash
    part. *)
Definition table_of (vs : list TValue) : Table :=
  {| sizearray := N.of_nat (length vs);
     array := fun i => nth (N.to_nat i) vs ref_empty;
     node := ∅ |}.

Definition start (t : Table) : State :=
  {| the_table := t; host_calls := [] |}.

Definition int_value (n : Z) : TValue := mkTValue 19 n.

(** The state right after [luaH_titan_normalize_table(L, t)]. *)
Definition after_normalize `{H : LuaHost} (s : State) : State :=
  called CallNormalize
    {| the_table := host_normalize_table (the_table s);
       host_calls := host_calls s |}.

(** The state right after [luaH_resizearray(L, t, nasize)]. *)
Definition after_resize `{H : LuaHost} (nasize : N) (s : State) : State :=
  called (CallResize nasize)
    {| the_table := host_resizearray (the_table s) nasize;
       host_calls := host_calls s |}.

(** The size the write check asks for when the array part has size [asize]:
    the value of [(asize == 0 ? 1 : 2*asize)]. *)
Definition grown_asize `{H : LuaHost} (asize : N) : N :=
  if (asize =? 0)%N then 1%N else uint_mul 2 asize.

(** The size of the array part once the table is normalized. *)
Definition normal_size `{H : LuaHost} (s : State) : N :=
  sizearray (host_normalize_table (the_table s)).

(** The two bounds diagnostics. *)
Definition outside_message (line col : Z) : string :=
  "out of bounds (outside array part) at line " ++ pretty line
  ++ ", col " ++ pretty col.

Definition inside_message (line : Z) : string :=
  "out of bounds (inside array part) at line " ++ pretty line.

(** The host calls a run added to those of its initial state. *)
Definition new_calls (s s' : State) : list HostCall :=
  drop (length (host_calls s)) (host_calls s').

(** The message of an element of the wrong type. *)
Definition element_message (line : Z) (expected found : string) : string :=
  "wrong type for array element at line " ++ pretty line
  ++ ", expected " ++ expected ++ " but found " ++ found.

(** The size of the array part after [k] appends to an empty table. *)
Definition cap_after (k : N) : N :=
  if (k =? 0)%N then 0%N else pow2_ceil k.

(** Some states of the reference host. *)
Definition three_ints : State :=
  start (table_of (map int_value [10; 20; 30]%Z)).

Definition three_holes : State := start (blank_table 3).

(** An array part of two slots, both in use. *)
Definition two_ints : State :=
  start (table_of (map int_value [10; 20]%Z)).

(** An empty array part, with key 1 waiting in the hash part. *)
Definition key_in_hash : State :=
  start {| sizearray := 0;
           array := fun _ => ref_empty;
           node := {[ 1%Z := int_value 5 ]} |}.

(** An array part as large as half the range of a 32-bit [unsigned int]. *)
Definition half_range : State := start (blank_table (2 ^ 31)).

(** A call that only raises: it ends in [Raises msg], leaves the table as
    it was, and the one service it asks of the host is the error that
    carries [msg]. *)
Definition raises_only (s : State) (r : outcome unit * State) : Prop :=
  exists msg : string,
    fst r = Raises msg
    /\ the_table (snd r) = the_table s
    /\ new_calls s (snd r) = [CallError msg].

(** Modelled from the spec: of the host's normalization the layer "only
    requires it be idempotent and safe to call unconditionally". *)
Definition NormalizeIdempotent `{H : LuaHost} : Prop :=
  forall t, host_normalize_table (host_normalize_table t)
            = host_normalize_table t.

(** The number of resizes over the first [k] appends to an empty table. *)
Definition resize_count (k : N) : nat :=
  if (k =? 0)%N then 0%nat else S (N.to_nat (N.log2_up k)).

(** The character [c] does not occur in the string. *)
Fixpoint lacks (c : ascii) (x : string) : bool :=
  match x with
  | EmptyString => true
  | String d x' => negb (Ascii.eqb d c) && lacks c x'
  end.

(** * Properties *)

(** ** Running the checks *)

Section Runs.
Context `{H : LuaHost}.

Lemma append_empty_r (x : string) : x ++ "" = x.
Proof.
  induction x as [|c x IH]; [reflexivity|].
  change (String c (x ++ "") = String c x). now rewrite IH.
Qed.

Lemma bounds_error_run (line col : Z) (s : State) :
  titan_runtime_array_bounds_error line col s
  = (Raises (outside_message line col),
     called (CallError (outside_message line col)) s).
Proof.
  unfold titan_runtime_array_bounds_error, luaL_error, outside_message.
  cbn. rewrite append_empty_r. reflexivity.
Qed.

Lemma read_run (ui : N) (line col : Z) (s : State) :
  titan_runtime_array_out_of_bounds_read ui line col s
  = if (normal_size s <=? ui)%N
    then (Raises (outside_message line col),
          called (CallError (outside_message line col)) (after_normalize s))
    else (Returns tt, after_normalize s).
Proof.
  unfold titan_runtime_array_out_of_bounds_read, normal_size.
  unfold mbind, M_bind, luaH_titan_normalize_table, get_sizearray, when.
  cbn [the_table called after_normalize].
  destruct (sizearray (host_normalize_table (the_table s)) <=? ui)%N;
    [apply bounds_error_run | reflexivity].
Qed.

Lemma write_run (ui : N) (line col : Z) (s : State) :
  titan_runtime_array_out_of_bounds_write ui line col s
  = if (normal_size s <? ui)%N
    then (Raises (outside_message line col),
          called (CallError (outside_message line col)) (after_normalize s))
    else if (ui =? normal_size s)%N
    then (Returns tt,
          after_resize (grown_asize (normal_size s)) (after_normalize s))
    else (Returns tt, after_normalize s).
Proof.
  unfold titan_runtime_array_out_of_bounds_write, normal_size.
  unfold mbind, M_bind, luaH_titan_normalize_table, get_sizearray, when.
  cbn [the_table called after_normalize].
  destruct (sizearray (host_normalize_table (the_table s)) <? ui)%N;
    [now rewrite bounds_error_run|].
  cbn [mret M_ret].
  destruct (ui =? sizearray (host_normalize_table (the_table s)))%N;
    reflexivity.
Qed.

Lemma new_calls_app (s s' : State) (cs : list HostCall) :
  host_calls s' = (host_calls s ++ cs)%list -> new_calls s s' = cs.
Proof.
  intros E. unfold new_calls. rewrite E. apply drop_app_length.
Qed.

Lemma calls_after_normalize (s : State) :
  host_calls (after_normalize s) = (host_calls s ++ [CallNormalize])%list.
Proof. reflexivity. Qed.

Lemma calls_after_resize (n : N) (s : State) :
  host_calls (after_resize n s) = (host_calls s ++ [CallResize n])%list.
Proof. reflexivity. Qed.

Lemma calls_called (c : HostCall) (s : State) :
  host_calls (called c s) = (host_calls s ++ [c])%list.
Proof. reflexivity. Qed.

End Runs.

Section Calls.
Context `{H : LuaHost}.

Lemma new_calls_normalize (s : State) :
  new_calls s (after_normalize s) = [CallNormalize].
Proof. apply new_calls_app. reflexivity. Qed.

Lemma new_calls_normalize_then (c : HostCall) (s : State) :
  new_calls s (called c (after_normalize s)) = [CallNormalize; c].
Proof.
  apply new_calls_app. rewrite calls_called, calls_after_normalize.
  now rewrite <- app_assoc.
Qed.

Lemma new_calls_normalize_resize (n : N) (s : State) :
  new_calls s (after_resize n (after_normalize s))
  = [CallNormalize; CallResize n].
Proof.
  apply new_calls_app. rewrite calls_after_resize, calls_after_normalize.
  now rewrite <- app_assoc.
Qed.

(** The host calls of the read check, in order. *)
Lemma read_calls (ui : N) (line col : Z) (s : State) :
  new_calls s (snd (titan_runtime_array_out_of_bounds_read ui line col s))
  = CallNormalize ::
    (if (normal_size s <=? ui)%N
     then [CallError (outside_message line col)] else []).
Proof.
  rewrite read_run. destruct (normal_size s <=? ui)%N; cbn [snd].
  - apply new_calls_normalize_then.
  - apply new_calls_normalize.
Qed.

(** The host calls of the write check, in order. *)
Lemma write_calls (ui : N) (line col : Z) (s : State) :
  new_calls s (snd (titan_runtime_array_out_of_bounds_write ui line col s))
  = CallNormalize ::
    (if (normal_size s <? ui)%N
     then [CallError (outside_message line col)]
     else if (ui =? normal_size s)%N
     then [CallResize (grown_asize (normal_size s))] else []).
Proof.
  rewrite write_run. destruct (normal_size s <? ui)%N; cbn [snd].
  - apply new_calls_normalize_then.
  - destruct (ui =? normal_size s)%N; cbn [snd].
    + apply new_calls_normalize_resize.
    + apply new_calls_normalize.
Qed.

Lemma read_outcome (ui : N) (line col : Z) (s : State) :
  fst (titan_runtime_array_out_of_bounds_read ui line col s)
  = if (normal_size s <=? ui)%N
    then Raises (outside_message line col) else Returns tt.
Proof. rewrite read_run. now destruct (normal_size s <=? ui)%N. Qed.

Lemma write_outcome (ui : N) (line col : Z) (s : State) :
  fst (titan_runtime_array_out_of_bounds_write ui line col s)
  = if (normal_size s <? ui)%N
    then Raises (outside_message line col) else Returns tt.
Proof.
  rewrite write_run. destruct (normal_size s <? ui)%N; [reflexivity|].
  now destruct (ui =? normal_size s)%N.
Qed.

Lemma read_table (ui : N) (line col : Z) (s : State) :
  the_table (snd (titan_runtime_array_out_of_bounds_read ui line col s))
  = host_normalize_table (the_table s).
Proof. rewrite read_run. now destruct (normal_size s <=? ui)%N. Qed.

Lemma write_table (ui : N) (line col : Z) (s : State) :
  the_table (snd (titan_runtime_array_out_of_bounds_write ui line col s))
  = if (ui =? normal_size s)%N
    then host_resizearray (host_normalize_table (the_table s))
           (grown_asize (normal_size s))
    else host_normalize_table (the_table s).
Proof.
  rewrite write_run. destruct (normal_size s <? ui)%N eqn:E.
  - apply N.ltb_lt in E.
    destruct (N.eqb_spec ui (normal_size s)); [lia | reflexivity].
  - now destruct (ui =? normal_size s)%N.
Qed.

Lemma normal_size_normalized (s : State) :
  normalized (the_table s) -> normal_size s = sizearray (the_table s).
Proof. unfold normalized, normal_size. now intros ->. Qed.

Lemma pow2_half_double (w : N) : (2 ^ w <= 2 * 2 ^ (w - 1))%N.
Proof.
  destruct (N.eq_dec w 0%N) as [-> | Hw]; [cbn; lia|].
  replace w with (N.succ (w - 1)) at 1 by lia.
  rewrite N.pow_succ_r'. lia.
Qed.

(** Below half the range of [unsigned int] the doubling is exact. *)
Lemma grown_asize_exact (asize : N) :
  (asize < 2 ^ (uint_bits - 1))%N ->
  grown_asize asize = if (asize =? 0)%N then 1%N else (2 * asize)%N.
Proof.
  intros Hlt. unfold grown_asize, uint_mul.
  destruct (asize =? 0)%N; [reflexivity|].
  apply N.mod_small.
  destruct (N.eq_dec uint_bits 0%N) as [E | E].
  - rewrite E in *. change (asize < 1)%N in Hlt. rewrite N.pow_0_r. lia.
  - replace uint_bits with (N.succ (uint_bits - 1)) at 1 by lia.
    rewrite N.pow_succ_r'. lia.
Qed.

End Calls.

(** ** The reference host meets the contracts *)

Lemma ref_resize_contract : ResizeContract (H := ref_host).
Proof.
  split.
  - reflexivity.
  - intros t n i Hi Hn. cbn.
    destruct (N.ltb_spec i (N.min (sizearray t) n)); [reflexivity | lia].
  - reflexivity.
Qed.

Lemma ref_hash_free_normalized : HashFreeNormalized (H := ref_host).
Proof.
  intros t E. unfold normalized. cbn. unfold ref_normalize_table.
  rewrite E, map_size_empty. reflexivity.
Qed.

Lemma fold_run_fixed (fuel : nat) (t : Table) :
  node t !! (Z.of_N (sizearray t) + 1)%Z = None -> fold_run fuel t = t.
Proof. intros E. destruct fuel; cbn; [reflexivity | now rewrite E]. Qed.

Lemma fold_run_stops (fuel : nat) :
  forall t : Table,
  (size (node t) <= fuel)%nat ->
  node (fold_run fuel t) !! (Z.of_N (sizearray (fold_run fuel t)) + 1)%Z
  = None.
Proof.
  induction fuel as [|fuel IH]; intros t Hsize; cbn [fold_run].
  - assert (E : node t = ∅) by (apply map_size_empty_iff; lia).
    rewrite E. apply lookup_empty.
  - destruct (node t !! (Z.of_N (sizearray t) + 1)%Z) as [v|] eqn:E;
      [|exact E].
    apply IH. cbn [node].
    rewrite map_size_delete_Some by (rewrite E; eauto). lia.
Qed.

(** The normalization of the reference host is idempotent, as the spec asks
    of the host. *)
Lemma ref_normalize_idempotent (t : Table) :
  ref_normalize_table (ref_normalize_table t) = ref_normalize_table t.
Proof.
  unfold ref_normalize_table at 1. apply fold_run_fixed.
  unfold ref_normalize_table. now apply fold_run_stops.
Qed.

(** The scenarios of the spec on the reference host: a read at index 5 of
    three integers, the append at index 3, and a call with 3 arguments of a
    function of 2. *)
Example scenarios :
  fst (titan_runtime_array_out_of_bounds_read (H := ref_host)
         5 12 7 three_ints)
  = Raises "out of bounds (outside array part) at line 12, col 7"
  /\ new_calls three_ints
       (snd (titan_runtime_array_out_of_bounds_write (H := ref_host)
               3 12 7 three_ints))
     = [CallNormalize; CallResize 6]
  /\ fst (titan_runtime_arity_error 2 3 three_ints)
     = Raises
         "wrong number of arguments to function, expected 2 but received 3"
  /\ fst (titan_runtime_argument_type_error (H := ref_host)
            "x" 12 3 (mkTValue 5 0) three_ints)
     = Raises
         "wrong type for argument x at line 12, expected float but found table".
Proof. repeat split. Qed.

(** ** The bounds checks *)

(** C2. On a normalized table whose array part has size S: the read check
    returns when i < S and raises the "outside array part" violation when
    i >= S; the write check raises that violation exactly when i > S, and
    when i < S it returns, leaves the table as it is and asks for no new
    size. *)
Theorem bounds_decisions `{H : LuaHost}
    (s : State) (ui : N) (line col : Z) :
  normalized (the_table s) ->
  let S := sizearray (the_table s) in
  ((ui < S)%N ->
     fst (titan_runtime_array_out_of_bounds_read ui line col s) = Returns tt)
  /\ ((S <= ui)%N ->
        fst (titan_runtime_array_out_of_bounds_read ui line col s)
        = Raises (outside_message line col))
  /\ (fst (titan_runtime_array_out_of_bounds_write ui line col s)
      = Raises (outside_message line col) <-> (S < ui)%N)
  /\ ((ui < S)%N ->
        fst (titan_runtime_array_out_of_bounds_write ui line col s)
        = Returns tt
        /\ the_table
             (snd (titan_runtime_array_out_of_bounds_write ui line col s))
           = the_table s
        /\ resize_requests
             (new_calls s
                (snd (titan_runtime_array_out_of_bounds_write ui line col s)))
           = []).
Proof.
  intros Hn S.
  pose proof (normal_size_normalized s Hn) as ES. fold S in ES.
  repeat split.
  - intros Hlt. rewrite read_outcome, ES.
    destruct (N.leb_spec S ui); [lia | reflexivity].
  - intros Hge. rewrite read_outcome, ES.
    destruct (N.leb_spec S ui); [reflexivity | lia].
  - rewrite write_outcome, ES.
    destruct (N.ltb_spec S ui); [trivial | discriminate].
  - intros Hgt. rewrite write_outcome, ES.
    destruct (N.ltb_spec S ui); [reflexivity | lia].
  - rewrite write_outcome, ES.
    destruct (N.ltb_spec S ui); [lia | reflexivity].
  - rewrite write_table, ES.
    destruct (N.eqb_spec ui S); [lia | exact Hn].
  - rewrite write_calls, ES.
    destruct (N.ltb_spec S ui); [lia|].
    destruct (N.eqb_spec ui S); [lia | reflexivity].
Qed.

Lemma bounds_decisions_witness :
  normalized (H := ref_host) (the_table three_ints)
  /\ fst (titan_runtime_array_out_of_bounds_read (H := ref_host)
            5 10 4 three_ints)
     = Raises "out of bounds (outside array part) at line 10, col 4"
  /\ fst (titan_runtime_array_out_of_bounds_write (H := ref_host)
            1 10 4 three_ints)
     = Returns tt.
Proof.
  assert (Hn : normalized (H := ref_host) (the_table three_ints))
    by reflexivity.
  split; [exact Hn|]. split.
  - apply (bounds_decisions (H := ref_host) three_ints 5 10 4 Hn).
    now vm_compute.
  - apply (bounds_decisions (H := ref_host) three_ints 1 10 4 Hn).
    reflexivity.
Defined.

(** C6. Both bounds checks call the host's normalization first, on every
    input, and decide on the size of the array part as normalization left
    it: the host calls of a check start with the normalization, and the
    outcome and the requested size are those computed from the normalized
    table. *)
Theorem normalize_precedes_bounds_decision `{H : LuaHost}
    (s : State) (ui : N) (line col : Z) :
  let S := sizearray (host_normalize_table (the_table s)) in
  new_calls s (snd (titan_runtime_array_out_of_bounds_read ui line col s))
  = CallNormalize ::
    (if (S <=? ui)%N then [CallError (outside_message line col)] else [])
  /\ fst (titan_runtime_array_out_of_bounds_read ui line col s)
     = (if (S <=? ui)%N
        then Raises (outside_message line col) else Returns tt)
  /\ new_calls s
       (snd (titan_runtime_array_out_of_bounds_write ui line col s))
     = CallNormalize ::
       (if (S <? ui)%N then [CallError (outside_message line col)]
        else if (ui =? S)%N then [CallResize (grown_asize S)] else [])
  /\ fst (titan_runtime_array_out_of_bounds_write ui line col s)
     = (if (S <? ui)%N
        then Raises (outside_message line col) else Returns tt).
Proof.
  intros S. repeat split.
  - apply read_calls.
  - apply read_outcome.
  - apply write_calls.
  - apply write_outcome.
Qed.

(** C7, as the code has it.  The read check changes the table by the
    normalization it starts with and by nothing else: the table after the
    check is the normalized table, whatever the outcome, no new size is
    asked for, and a table that was normalized is left as it was. *)
Theorem read_check_only_normalizes `{H : LuaHost}
    (s : State) (ui : N) (line col : Z) :
  the_table (snd (titan_runtime_array_out_of_bounds_read ui line col s))
  = host_normalize_table (the_table s)
  /\ resize_requests
       (new_calls s
          (snd (titan_runtime_array_out_of_bounds_read ui line col s)))
     = []
  /\ (normalized (the_table s) ->
      the_table (snd (titan_runtime_array_out_of_bounds_read ui line col s))
      = the_table s).
Proof.
  repeat split.
  - apply read_table.
  - rewrite read_calls. now destruct (normal_size s <=? ui)%N.
  - intros Hn. rewrite read_table. exact Hn.
Qed.

(** C7 as stated fails: with key 1 in the hash part and an empty array
    part, the read check at index 0 returns, and the table it leaves has an
    array part of size 1 and an empty hash part. *)
Lemma read_check_mutates_table :
  fst (titan_runtime_array_out_of_bounds_read (H := ref_host)
         0 10 4 key_in_hash)
  = Returns tt
  /\ the_table
       (snd (titan_runtime_array_out_of_bounds_read (H := ref_host)
               0 10 4 key_in_hash))
     <> the_table key_in_hash
  /\ sizearray (the_table key_in_hash) = 0%N
  /\ sizearray
       (the_table
          (snd (titan_runtime_array_out_of_bounds_read (H := ref_host)
                  0 10 4 key_in_hash)))
     = 1%N.
Proof.
  repeat split.
  intros E. apply (f_equal sizearray) in E. vm_compute in E. discriminate.
Qed.

(** C9. Whether a bounds check returns or raises, and the size the write
    check asks for, depend on the index and on the size of the normalized
    array part only: two states of equal normalized size, checked at the
    same index with any lines and columns, get the same decisions. *)
Theorem bounds_decision_depends_on_size_only `{H : LuaHost}
    (s1 s2 : State) (ui : N) (line1 col1 line2 col2 : Z) :
  normal_size s1 = normal_size s2 ->
  returned (fst (titan_runtime_array_out_of_bounds_read ui line1 col1 s1))
  = returned (fst (titan_runtime_array_out_of_bounds_read ui line2 col2 s2))
  /\ returned
       (fst (titan_runtime_array_out_of_bounds_write ui line1 col1 s1))
     = returned
         (fst (titan_runtime_array_out_of_bounds_write ui line2 col2 s2))
  /\ resize_requests
       (new_calls s1
          (snd (titan_runtime_array_out_of_bounds_write ui line1 col1 s1)))
     = resize_requests
         (new_calls s2
            (snd (titan_runtime_array_out_of_bounds_write ui line2 col2 s2))).
Proof.
  intros E. repeat split.
  - rewrite !read_outcome, E. now destruct (normal_size s2 <=? ui)%N.
  - rewrite !write_outcome, E. now destruct (normal_size s2 <? ui)%N.
  - rewrite !write_calls, E. destruct (normal_size s2 <? ui)%N; [reflexivity|].
    now destruct (ui =? normal_size s2)%N.
Qed.

Lemma bounds_decision_depends_on_size_only_witness :
  normal_size (H := ref_host) three_ints
  = normal_size (H := ref_host) three_holes
  /\ resize_requests
       (new_calls three_ints
          (snd (titan_runtime_array_out_of_bounds_write (H := ref_host)
                  3 10 4 three_ints)))
     = resize_requests
         (new_calls three_holes
            (snd (titan_runtime_array_out_of_bounds_write (H := ref_host)
                    3 77 1 three_holes))).
Proof.
  assert (E : normal_size (H := ref_host) three_ints
              = normal_size (H := ref_host) three_holes) by reflexivity.
  split; [exact E|].
  apply (bounds_decision_depends_on_size_only (H := ref_host)
           three_ints three_holes 3 10 4 77 1 E).
Defined.

(** C10. The doubling is [unsigned int] arithmetic without an overflow
    check: when the normalized array part has at least 2^(w-1) slots, w the
    width of [unsigned int], the append asks the host for
    (2 * size) mod 2^w, which is less than the doubled size. *)
Theorem doubling_wraps `{H : LuaHost} (s : State) (line col : Z) :
  (2 ^ (uint_bits - 1) <= normal_size s)%N ->
  resize_requests
    (new_calls s
       (snd (titan_runtime_array_out_of_bounds_write
               (normal_size s) line col s)))
  = [((2 * normal_size s) mod 2 ^ uint_bits)%N]
  /\ ((2 * normal_size s) mod 2 ^ uint_bits < 2 * normal_size s)%N.
Proof.
  intros Hge.
  assert (Hpos : (0 < 2 ^ (uint_bits - 1))%N)
    by (apply N.neq_0_lt_0, N.pow_nonzero; discriminate).
  split.
  - rewrite write_calls, N.ltb_irrefl, N.eqb_refl. cbn [resize_requests].
    unfold grown_asize, uint_mul.
    destruct (N.eqb_spec (normal_size s) 0); [lia | reflexivity].
  - pose proof (pow2_half_double uint_bits) as Hw.
    assert (Hnz : (2 ^ uint_bits <> 0)%N)
      by (apply N.pow_nonzero; discriminate).
    pose proof (N.mod_lt (2 * normal_size s) _ Hnz). lia.
Qed.

Lemma doubling_wraps_witness :
  (2 ^ (uint_bits (LuaHost := ref_host) - 1)
   <= normal_size (H := ref_host) half_range)%N
  /\ resize_requests
       (new_calls half_range
          (snd (titan_runtime_array_out_of_bounds_write (H := ref_host)
                  (2 ^ 31) 10 4 half_range)))
     = [0%N].
Proof.
  assert (Hge : (2 ^ (uint_bits (LuaHost := ref_host) - 1)
                 <= normal_size (H := ref_host) half_range)%N)
    by now vm_compute.
  split; [exact Hge|].
  exact (proj1 (doubling_wraps (H := ref_host) half_range 10 4 Hge)).
Defined.

(** ** Diagnostics *)

Lemma luaL_error_outcome (fmt : string) (argp : list fmt_arg) (s : State) :
  fst (luaL_error fmt argp s) = Raises (lua_pushvfstring fmt argp).
Proof. reflexivity. Qed.

Lemma luaL_error_table (fmt : string) (argp : list fmt_arg) (s : State) :
  the_table (snd (luaL_error fmt argp s)) = the_table s.
Proof. reflexivity. Qed.

(** [%d] prints decimal digits, with a minus sign for a negative [int]. *)
Example pretty_int_examples :
  pretty 0%Z = "0" /\ pretty 42%Z = "42" /\ pretty (-7)%Z = "-7".
Proof. repeat split. Qed.

(** Expands a format of tcore.c over its arguments. *)
Ltac expand_format :=
  rewrite luaL_error_outcome; f_equal;
  cbn [lua_pushvfstring Ascii.eqb Bool.eqb];
  rewrite append_empty_r; reflexivity.

Lemma array_type_error_outcome `{H : LuaHost}
    (line expected_tag : Z) (slot : TValue) (s : State) :
  fst (titan_runtime_array_type_error line expected_tag slot s)
  = if isempty slot then Raises (inside_message line)
    else Raises (element_message line (titan_tag_name expected_tag)
                   (titan_tag_name (rawtt slot))).
Proof.
  unfold titan_runtime_array_type_error.
  unfold inside_message, element_message.
  destruct (isempty slot); expand_format.
Qed.

(** C8. The message of every diagnostic of tcore.c, with each [int] in
    decimal and each type name given by [titan_tag_name]. *)
Theorem diagnostic_formats `{H : LuaHost} (s : State) :
  (forall expected received : Z,
     fst (titan_runtime_arity_error expected received s)
     = Raises ("wrong number of arguments to function, expected "
               ++ pretty expected ++ " but received " ++ pretty received))
  /\ (forall (param_name : string) (line expected_tag : Z) (slot : TValue),
        fst (titan_runtime_argument_type_error
               param_name line expected_tag slot s)
        = Raises ("wrong type for argument " ++ param_name
                  ++ " at line " ++ pretty line
                  ++ ", expected " ++ titan_tag_name expected_tag
                  ++ " but found " ++ titan_tag_name (rawtt slot)))
  /\ (forall line col : Z,
        fst (titan_runtime_array_bounds_error line col s)
        = Raises ("out of bounds (outside array part) at line "
                  ++ pretty line ++ ", col " ++ pretty col))
  /\ (forall (line expected_tag : Z) (slot : TValue),
        fst (titan_runtime_array_type_error line expected_tag slot s)
        = if isempty slot
          then Raises ("out of bounds (inside array part) at line "
                       ++ pretty line)
          else Raises ("wrong type for array element at line "
                       ++ pretty line
                       ++ ", expected " ++ titan_tag_name expected_tag
                       ++ " but found " ++ titan_tag_name (rawtt slot)))
  /\ (forall (line expected_tag : Z) (slot : TValue),
        fst (titan_runtime_function_return_error line expected_tag slot s)
        = Raises ("wrong type for function result at line " ++ pretty line
                  ++ ", expected " ++ titan_tag_name expected_tag
                  ++ " but found " ++ titan_tag_name (rawtt slot))).
Proof.
  repeat split; intros.
  - unfold titan_runtime_arity_error. expand_format.
  - unfold titan_runtime_argument_type_error. expand_format.
  - now rewrite bounds_error_run.
  - apply array_type_error_outcome.
  - unfold titan_runtime_function_return_error. expand_format.
Qed.

(** C5, as the code has it.  [titan_runtime_array_type_error] compares no
    tags and never returns: generated code calls it once the element has
    failed its test.  On an empty slot it raises the "inside array part"
    violation, whatever the expected tag; on any other slot it raises the
    element type mismatch that names the expected and the found type.  The
    table is left as it was. *)
Theorem array_type_error_always_raises `{H : LuaHost}
    (line expected_tag : Z) (slot : TValue) (s : State) :
  fst (titan_runtime_array_type_error line expected_tag slot s)
  = (if isempty slot then Raises (inside_message line)
     else Raises (element_message line (titan_tag_name expected_tag)
                    (titan_tag_name (rawtt slot))))
  /\ returned (fst (titan_runtime_array_type_error line expected_tag slot s))
     = false
  /\ the_table (snd (titan_runtime_array_type_error line expected_tag slot s))
     = the_table s.
Proof.
  split; [apply array_type_error_outcome|]. split.
  - rewrite array_type_error_outcome. now destruct (isempty slot).
  - unfold titan_runtime_array_type_error.
    destruct (isempty slot); apply luaL_error_table.
Qed.

(** C5 as stated fails: a slot that holds an integer, checked against the
    integer tag, does not make the function return. *)
Lemma array_type_error_raises_on_equal_tags :
  isempty (LuaHost := ref_host) (int_value 4) = false
  /\ rawtt (int_value 4) = LUA_TNUMINT (LuaHost := ref_host)
  /\ fst (titan_runtime_array_type_error (H := ref_host)
            7 (LUA_TNUMINT (LuaHost := ref_host)) (int_value 4)
            (start (blank_table 0)))
     = Raises
         "wrong type for array element at line 7, expected integer but found integer".
Proof. repeat split. Qed.

(** ** Growth *)

Section Growth.
Context `{H : LuaHost}.
Hypothesis resize_ok : ResizeContract.

(** An append: the write check at the size of the normalized array part. *)
Lemma append_check (s : State) (line col : Z) :
  let t0 := host_normalize_table (the_table s) in
  let r := titan_runtime_array_out_of_bounds_write (normal_size s) line col s in
  fst r = Returns tt
  /\ new_calls s (snd r)
     = [CallNormalize; CallResize (grown_asize (normal_size s))]
  /\ sizearray (the_table (snd r)) = grown_asize (normal_size s)
  /\ (forall i, (i < normal_size s)%N ->
        (i < grown_asize (normal_size s))%N ->
        array (the_table (snd r)) i = array t0 i)
  /\ ((normal_size s <= grown_asize (normal_size s))%N ->
        node (the_table (snd r)) = node t0).
Proof.
  intros t0 r. subst r.
  rewrite write_outcome, write_calls, write_table.
  rewrite N.ltb_irrefl, N.eqb_refl.
  repeat split.
  - apply (resize_sizearray resize_ok).
  - intros i Hi Hg. now apply (resize_array resize_ok).
  - intros Hle. now apply (resize_node resize_ok).
Qed.

Lemma grown_asize_above (asize : N) :
  (asize < 2 ^ (uint_bits - 1))%N -> (asize < grown_asize asize)%N.
Proof.
  intros Hlt. rewrite grown_asize_exact by exact Hlt.
  destruct (N.eqb_spec asize 0); lia.
Qed.

Lemma grown_asize_advance (asize : N) :
  (asize < 2 ^ (uint_bits - 1))%N ->
  grown_asize asize = (asize + N.max 1 asize)%N.
Proof.
  intros Hlt. rewrite grown_asize_exact by exact Hlt.
  destruct (N.eqb_spec asize 0); lia.
Qed.

End Growth.

(** C3, as the code has it.  An append is a write check at the size S of
    the normalized array part; below half the range of [unsigned int] it
    returns and every slot below S keeps its value.  The table has one
    size, [sizearray], and the host sets it to the size asked for: it
    advances by max(1, S), not by one, so the indices within the array part
    afterwards are those below S + max(1, S). *)
Theorem append_growth_invariants `{H : LuaHost}
    (resize_ok : ResizeContract) (s : State) (line col : Z) :
  (normal_size s < 2 ^ (uint_bits - 1))%N ->
  let t0 := host_normalize_table (the_table s) in
  let S := sizearray t0 in
  let r := titan_runtime_array_out_of_bounds_write S line col s in
  fst r = Returns tt
  /\ sizearray (the_table (snd r)) = (S + N.max 1 S)%N
  /\ (forall i, (i < S)%N -> array (the_table (snd r)) i = array t0 i)
  /\ (forall j, (j < sizearray (the_table (snd r)))%N
                <-> (j < S + N.max 1 S)%N).
Proof.
  intros Hlt t0 S r.
  destruct (append_check resize_ok s line col) as (Ho & _ & Hs & Ha & _).
  cbv zeta in Ho, Hs, Ha.
  pose proof (grown_asize_above _ Hlt) as Hab.
  pose proof (grown_asize_advance _ Hlt) as Hadv.
  subst r S t0.
  change (sizearray (host_normalize_table (the_table s)))
    with (normal_size s).
  split; [exact Ho|]. split; [now rewrite Hs|].
  split; [intros i Hi; apply Ha; lia|].
  intros j. rewrite Hs, Hadv. reflexivity.
Qed.

Lemma append_growth_invariants_witness :
  (normal_size (H := ref_host) two_ints
   < 2 ^ (uint_bits (LuaHost := ref_host) - 1))%N
  /\ sizearray
       (the_table
          (snd (titan_runtime_array_out_of_bounds_write (H := ref_host)
                  2 10 4 two_ints)))
     = (2 + N.max 1 2)%N.
Proof.
  assert (Hlt : (normal_size (H := ref_host) two_ints
                 < 2 ^ (uint_bits (LuaHost := ref_host) - 1))%N)
    by reflexivity.
  split; [exact Hlt|].
  exact (proj1 (proj2
    (append_growth_invariants (H := ref_host) ref_resize_contract
       two_ints 10 4 Hlt))).
Defined.

(** C3 as stated fails: after the append at index 2 of an array part of
    size 2 the size is 4, not 3, and index 3, where nothing was written,
    passes the read check. *)
Lemma append_advances_size_by_more_than_one :
  normal_size (H := ref_host) two_ints = 2%N
  /\ fst (titan_runtime_array_out_of_bounds_write (H := ref_host)
            2 10 4 two_ints)
     = Returns tt
  /\ sizearray
       (the_table
          (snd (titan_runtime_array_out_of_bounds_write (H := ref_host)
                  2 10 4 two_ints)))
     = 4%N
  /\ sizearray
       (the_table
          (snd (titan_runtime_array_out_of_bounds_write (H := ref_host)
                  2 10 4 two_ints)))
     <> (2 + 1)%N
  /\ fst (titan_runtime_array_out_of_bounds_read (H := ref_host) 3 11 4
            (snd (titan_runtime_array_out_of_bounds_write (H := ref_host)
                    2 10 4 two_ints)))
     = Returns tt.
Proof. repeat split. discriminate. Qed.

(** C4, as the code has it.  With an array part of size 3 the write check
    at index 3 returns and asks the host for a size of 6, twice the size:
    the test is [ui == asize] and the table has no other capacity to
    compare with.  The resize is the last thing the check does; the three
    slots keep their values and the check writes none. *)
Theorem append_at_three_doubles_to_six `{H : LuaHost}
    (resize_ok : ResizeContract) (s : State) (line col : Z) :
  normal_size s = 3%N ->
  (3 <= uint_bits)%N ->
  let r := titan_runtime_array_out_of_bounds_write 3 line col s in
  fst r = Returns tt
  /\ new_calls s (snd r) = [CallNormalize; CallResize 6]
  /\ sizearray (the_table (snd r)) = 6%N
  /\ (forall i, (i < 3)%N ->
        array (the_table (snd r)) i
        = array (host_normalize_table (the_table s)) i).
Proof.
  intros E Hw r.
  assert (Hg : grown_asize 3 = 6%N).
  { unfold grown_asize, uint_mul. cbn [N.eqb]. apply N.mod_small.
    apply N.lt_le_trans with (2 ^ 3)%N; [reflexivity|].
    apply N.pow_le_mono_r; [discriminate | exact Hw]. }
  destruct (append_check resize_ok s line col) as (Ho & Hc & Hs & Ha & _).
  cbv zeta in Ho, Hc, Hs, Ha. rewrite E in Ho, Hc, Hs, Ha.
  rewrite Hg in Hc, Hs, Ha.
  subst r.
  split; [exact Ho|]. split; [exact Hc|]. split; [exact Hs|].
  intros i Hi. apply Ha; lia.
Qed.

Lemma append_at_three_doubles_to_six_witness :
  normal_size (H := ref_host) three_ints = 3%N
  /\ (3 <= uint_bits (LuaHost := ref_host))%N
  /\ sizearray
       (the_table
          (snd (titan_runtime_array_out_of_bounds_write (H := ref_host)
                  3 10 4 three_ints)))
     = 6%N.
Proof.
  assert (E : normal_size (H := ref_host) three_ints = 3%N) by reflexivity.
  assert (Hw : (3 <= uint_bits (LuaHost := ref_host))%N) by now vm_compute.
  split; [exact E|]. split; [exact Hw|].
  exact (proj1 (proj2 (proj2
    (append_at_three_doubles_to_six (H := ref_host) ref_resize_contract
       three_ints 10 4 E Hw)))).
Defined.

(** C4 as stated fails: the append at index 3 of three integers asks for a
    size of 6 and leaves an array part of size 6, not 4. *)
Lemma append_at_three_does_not_grow_to_four :
  normal_size (H := ref_host) three_ints = 3%N
  /\ fst (titan_runtime_array_out_of_bounds_write (H := ref_host)
            3 10 4 three_ints)
     = Returns tt
  /\ resize_requests
       (new_calls three_ints
          (snd (titan_runtime_array_out_of_bounds_write (H := ref_host)
                  3 10 4 three_ints)))
     = [6%N]
  /\ sizearray
       (the_table
          (snd (titan_runtime_array_out_of_bounds_write (H := ref_host)
                  3 10 4 three_ints)))
     <> 4%N.
Proof. repeat split. discriminate. Qed.

(** ** Sequences of appends *)

Lemma pow2_ceil_ge (a : N) : (1 <= a)%N -> (a <= pow2_ceil a)%N.
Proof.
  intros Ha. unfold pow2_ceil.
  destruct (N.eq_dec a 1%N) as [-> | Hne]; [now vm_compute|].
  apply N.log2_up_spec. lia.
Qed.

Lemma pow2_ceil_succ (a : N) :
  (1 <= a)%N ->
  pow2_ceil (a + 1) = if (a =? pow2_ceil a)%N then (2 * a)%N else pow2_ceil a.
Proof.
  intros Ha. unfold pow2_ceil. rewrite N.add_1_r.
  destruct (N.eqb_spec a (2 ^ N.log2_up a)) as [E | Hne].
  - assert (Hs : N.log2_up (N.succ a) = N.succ (N.log2_up a)).
    { apply N.log2_up_eq_succ_iff_pow2; [lia|]. now exists (N.log2_up a). }
    rewrite Hs, N.pow_succ_r'. now rewrite <- E.
  - destruct (N.log2_up_succ_or a) as [Hs | Hs]; [|now rewrite Hs].
    apply N.log2_up_eq_succ_is_pow2 in Hs. destruct Hs as [b ->].
    rewrite N.log2_up_pow2 in Hne by lia. congruence.
Qed.

Lemma cap_after_ge (k : N) : (k <= cap_after k)%N.
Proof.
  unfold cap_after. destruct (N.eqb_spec k 0); [lia|].
  apply pow2_ceil_ge. lia.
Qed.

Lemma cap_after_succ (k : N) :
  cap_after (k + 1)
  = if (k =? cap_after k)%N
    then (if (k =? 0)%N then 1%N else (2 * k)%N)
    else cap_after k.
Proof.
  unfold cap_after.
  destruct (N.eqb_spec (k + 1) 0); [lia|].
  destruct (N.eqb_spec k 0) as [-> | Hk]; [reflexivity|].
  apply pow2_ceil_succ. lia.
Qed.

Lemma bind_run_returns {A B : Type} (m : M A) (f : A -> M B)
    (s : State) (a : A) :
  fst (m s) = Returns a -> (m ≫= f) s = f a (snd (m s)).
Proof.
  unfold mbind, M_bind. destruct (m s) as [[a' | msg] s']; cbn; intros E.
  - now inversion E.
  - discriminate.
Qed.

Section Appends.
Context `{H : LuaHost}.
Hypothesis resize_ok : ResizeContract.
Hypothesis hash_free : HashFreeNormalized.

(** The write check of the [ui]-th append to a table that was empty. *)
Lemma write_step (ui : N) (line col : Z) (s : State) :
  node (the_table s) = ∅ ->
  sizearray (the_table s) = cap_after ui ->
  (ui < 2 ^ (uint_bits - 1))%N ->
  let r := titan_runtime_array_out_of_bounds_write ui line col s in
  fst r = Returns tt
  /\ node (the_table (snd r)) = ∅
  /\ sizearray (the_table (snd r)) = cap_after (ui + 1)
  /\ (forall i, (i < ui)%N ->
        array (the_table (snd r)) i = array (the_table s) i).
Proof.
  intros Hnode Hsize Hlt r. subst r.
  pose proof (hash_free _ Hnode) as Hn.
  pose proof (normal_size_normalized s Hn) as ES.
  pose proof (cap_after_ge ui) as Hge.
  pose proof (cap_after_succ ui) as Hsucc.
  rewrite write_outcome, write_table, ES, Hsize.
  unfold normalized in Hn. rewrite Hn.
  destruct (N.ltb_spec (cap_after ui) ui); [lia|].
  split; [reflexivity|].
  destruct (N.eqb_spec ui (cap_after ui)) as [E | Hne].
  - rewrite <- E in *.
    pose proof (grown_asize_exact ui Hlt) as Hg.
    pose proof (grown_asize_above ui Hlt) as Hab.
    split; [|split].
    + rewrite (resize_node resize_ok); [exact Hnode | lia].
    + rewrite (resize_sizearray resize_ok). congruence.
    + intros i Hi. apply (resize_array resize_ok); lia.
  - split; [exact Hnode|]. split; [congruence | reflexivity].
Qed.

(** A run of appends from index [ui]. *)
Lemma appends_run (line col : Z) (vs : list TValue) :
  forall (ui : N) (s : State),
  node (the_table s) = ∅ ->
  sizearray (the_table s) = cap_after ui ->
  (ui + N.of_nat (length vs) <= 2 ^ (uint_bits - 1))%N ->
  let r := appends ui line col vs s in
  fst r
  = Returns (map (fun k => cap_after (ui + N.of_nat k)) (seq 1 (length vs)))
  /\ (forall i, (i < ui)%N ->
        array (the_table (snd r)) i = array (the_table s) i)
  /\ (forall k, (k < length vs)%nat ->
        array (the_table (snd r)) (ui + N.of_nat k) = nth k vs ref_empty).
Proof.
  induction vs as [|v vs IH]; intros ui s Hnode Hsize Hlen r; subst r.
  - cbn. split; [reflexivity|]. split; intros; [reflexivity | lia].
  - cbn [length] in Hlen.
    destruct (write_step ui line col s Hnode Hsize ltac:(lia))
      as (Ho & Hnode1 & Hsize1 & Hkeep1).
    cbv zeta in Ho, Hnode1, Hsize1, Hkeep1.
    set (s1 := snd (titan_runtime_array_out_of_bounds_write ui line col s))
      in *.
    set (s2 := snd (store_slot ui v s1)).
    assert (Hrun : appends ui line col (v :: vs) s
              = (caps ← appends (ui + 1) line col vs;
                 mret (sizearray (the_table s2) :: caps)) s2).
    { cbn [appends]. rewrite (bind_run_returns _ _ s tt Ho). reflexivity. }
    assert (Hsize2 : sizearray (the_table s2) = cap_after (ui + 1))
      by exact Hsize1.
    destruct (IH (ui + 1)%N s2 Hnode1 Hsize2 ltac:(lia))
      as (Ho' & Hkeep' & Hnew').
    cbv zeta in Ho', Hkeep', Hnew'.
    rewrite Hrun, (bind_run_returns _ _ s2 _ Ho'). cbn [fst snd mret M_ret].
    split; [|split].
    + f_equal. cbn [length seq map]. f_equal.
      * rewrite Hsize2. reflexivity.
      * rewrite <- (List.seq_shift (length vs) 1), List.map_map.
        apply List.map_ext.
        intros k. f_equal. lia.
    + intros i Hi. rewrite Hkeep' by lia. cbn. unfold set_slot.
      destruct (N.eqb_spec i ui); [lia|]. now apply Hkeep1.
    + intros [|k] Hk.
      * rewrite N.add_0_r. rewrite Hkeep' by lia. cbn. unfold set_slot.
        now rewrite N.eqb_refl.
      * cbn [nth]. cbn [length] in Hk.
        replace (ui + N.of_nat (S k))%N with (ui + 1 + N.of_nat k)%N by lia.
        apply Hnew'. lia.
Qed.

End Appends.

(** The sizes of the array part over the first appends to an empty table:
    0, then 1, 2, 4, 4, 8. *)
Example first_capacities :
  map cap_after [0; 1; 2; 3; 4; 5]%N = [0; 1; 2; 4; 4; 8]%N.
Proof. reflexivity. Qed.

(** X12.  Below half the range of [unsigned int]: an
    append (a write check at the size of the normalized array part) leaves
    an array part of size 1 when the size was 0 and of twice the size
    otherwise, and every slot below the old size keeps its value.  At any
    index the check asks for a new size exactly when the index equals the
    size.  Appends at indices 0, 1, 2, ... to a table with an empty array
    part and an empty hash part all return; after the k-th the size of the
    array part is the least power of two that is at least k (1, 2, 4, 4, 8,
    ...), and each slot holds the value that was appended to it. *)
Theorem append_growth_policy `{H : LuaHost}
    (resize_ok : ResizeContract) (hash_free : HashFreeNormalized) :
  (forall (s : State) (line col : Z),
     (normal_size s < 2 ^ (uint_bits - 1))%N ->
     let r :=
       titan_runtime_array_out_of_bounds_write (normal_size s) line col s in
     fst r = Returns tt
     /\ sizearray (the_table (snd r))
        = (if (normal_size s =? 0)%N then 1%N else (2 * normal_size s)%N)
     /\ (forall i, (i < normal_size s)%N ->
           array (the_table (snd r)) i
           = array (host_normalize_table (the_table s)) i))
  /\ (forall (s : State) (ui : N) (line col : Z),
        resize_requests
          (new_calls s
             (snd (titan_runtime_array_out_of_bounds_write ui line col s)))
        = if (ui =? normal_size s)%N
          then [grown_asize (normal_size s)] else [])
  /\ (forall (s : State) (vs : list TValue) (line col : Z),
        sizearray (the_table s) = 0%N ->
        node (the_table s) = ∅ ->
        (N.of_nat (length vs) <= 2 ^ (uint_bits - 1))%N ->
        let r := appends 0 line col vs s in
        fst r
        = Returns (map (fun k => pow2_ceil (N.of_nat k)) (seq 1 (length vs)))
        /\ (forall k, (k < length vs)%nat ->
              array (the_table (snd r)) (N.of_nat k) = nth k vs ref_empty)).
Proof.
  split; [|split].
  - intros s line col Hlt r.
    destruct (append_check resize_ok s line col) as (Ho & _ & Hs & Ha & _).
    cbv zeta in Ho, Hs, Ha. subst r.
    pose proof (grown_asize_above _ Hlt) as Hab.
    rewrite (grown_asize_exact _ Hlt) in Hs.
    split; [exact Ho|]. split; [exact Hs|].
    intros i Hi. apply Ha; lia.
  - intros s ui line col. rewrite write_calls. cbn [resize_requests].
    destruct (N.ltb_spec (normal_size s) ui) as [Hlt | Hge].
    + destruct (N.eqb_spec ui (normal_size s)); [lia | reflexivity].
    + now destruct (ui =? normal_size s)%N.
  - intros s vs line col Hsize Hnode Hlen r.
    destruct (appends_run resize_ok hash_free line col vs 0%N s
                Hnode Hsize ltac:(lia)) as (Ho & _ & Hnew).
    cbv zeta in Ho, Hnew. subst r. split.
    + rewrite Ho. f_equal. apply List.map_ext_in. intros k Hk.
      apply in_seq in Hk. unfold cap_after.
      destruct (N.eqb_spec (0 + N.of_nat k) 0); [lia | reflexivity].
    + intros k Hk. apply (Hnew k Hk).
Qed.

Lemma append_growth_policy_witness :
  fst (appends (H := ref_host) 0 10 4
         (map int_value [1; 2; 3; 4; 5]%Z) (start (blank_table 0)))
  = Returns [1; 2; 4; 4; 8]%N.
Proof.
  assert (Hlen : (N.of_nat (length (map int_value [1; 2; 3; 4; 5]%Z))
                  <= 2 ^ (uint_bits (LuaHost := ref_host) - 1))%N)
    by now vm_compute.
  exact (proj1
    (proj2 (proj2
       (append_growth_policy (H := ref_host)
          ref_resize_contract ref_hash_free_normalized))
       (start (blank_table 0)) (map int_value [1; 2; 3; 4; 5]%Z) 10%Z 4%Z
       eq_refl eq_refl Hlen)).
Defined.

(** C1.  The doubling [2*asize] has no overflow test, and the claim fails
    where it wraps: with 2^31 slots and a 32-bit [unsigned int] the append
    at index 2^31 asks the host for a size of 0 and returns; the array part
    it leaves has size 0, not 2^32, and the index that was just checked for
    writing fails the read check. *)
Lemma append_at_half_range_wraps :
  normal_size (H := ref_host) half_range = (2 ^ 31)%N
  /\ fst (titan_runtime_array_out_of_bounds_write (H := ref_host)
            (2 ^ 31) 10 4 half_range)
     = Returns tt
  /\ resize_requests
       (new_calls half_range
          (snd (titan_runtime_array_out_of_bounds_write (H := ref_host)
                  (2 ^ 31) 10 4 half_range)))
     = [0%N]
  /\ sizearray
       (the_table
          (snd (titan_runtime_array_out_of_bounds_write (H := ref_host)
                  (2 ^ 31) 10 4 half_range)))
     = 0%N
  /\ sizearray
       (the_table
          (snd (titan_runtime_array_out_of_bounds_write (H := ref_host)
                  (2 ^ 31) 10 4 half_range)))
     <> (2 * 2 ^ 31)%N
  /\ fst (titan_runtime_array_out_of_bounds_read (H := ref_host)
            (2 ^ 31) 11 4
            (snd (titan_runtime_array_out_of_bounds_write (H := ref_host)
                    (2 ^ 31) 10 4 half_range)))
     = Raises "out of bounds (outside array part) at line 11, col 4".
Proof.
  repeat split. intros E. vm_compute in E. discriminate.
Qed.

(** * Further properties of tcore.c *)

(** ** The functions that only raise *)

Lemma luaL_error_raises_only (fmt : string) (argp : list fmt_arg) (s : State) :
  raises_only s (luaL_error fmt argp s).
Proof.
  exists (lua_pushvfstring fmt argp). repeat split.
  apply new_calls_app. reflexivity.
Qed.

(** X1. The five functions of tcore.c that report a violation never return
    to generated code: each ends in a raise, leaves the table untouched
    (no normalization, no resize), and calls the host once, for the error
    that carries the raised message. *)
Theorem diagnostics_only_raise `{H : LuaHost} (s : State) :
  (forall expected received : Z,
     raises_only s (titan_runtime_arity_error expected received s))
  /\ (forall (param_name : string) (line expected_tag : Z) (slot : TValue),
        raises_only s
          (titan_runtime_argument_type_error
             param_name line expected_tag slot s))
  /\ (forall line col : Z,
        raises_only s (titan_runtime_array_bounds_error line col s))
  /\ (forall (line expected_tag : Z) (slot : TValue),
        raises_only s
          (titan_runtime_array_type_error line expected_tag slot s))
  /\ (forall (line expected_tag : Z) (slot : TValue),
        raises_only s
          (titan_runtime_function_return_error line expected_tag slot s)).
Proof.
  repeat split; intros.
  - apply luaL_error_raises_only.
  - apply luaL_error_raises_only.
  - apply luaL_error_raises_only.
  - unfold titan_runtime_array_type_error.
    destruct (isempty slot); apply luaL_error_raises_only.
  - apply luaL_error_raises_only.
Qed.

(** ** Reading and writing at the same index *)

(** X2. The two bounds checks agree except at the end of the array part.
    Where the read check returns, the write check returns too, asks for no
    new size and leaves the same table; where the write check raises, the
    read check raises the same violation; and the read check raises while
    the write check returns exactly at the index equal to the size of the
    normalized array part. *)
Theorem read_and_write_checks_agree `{H : LuaHost}
    (s : State) (ui : N) (line col : Z) :
  let rd := titan_runtime_array_out_of_bounds_read ui line col s in
  let wr := titan_runtime_array_out_of_bounds_write ui line col s in
  (returned (fst rd) = true ->
     fst wr = Returns tt
     /\ the_table (snd wr) = the_table (snd rd)
     /\ resize_requests (new_calls s (snd wr)) = [])
  /\ (returned (fst wr) = false -> fst rd = fst wr)
  /\ (returned (fst rd) = false /\ returned (fst wr) = true
      <-> ui = normal_size s).
Proof.
  intros rd wr. subst rd wr.
  rewrite read_outcome, write_outcome, read_table, write_table, write_calls.
  destruct (N.leb_spec (normal_size s) ui) as [Hle | Hlt];
    destruct (N.ltb_spec (normal_size s) ui) as [Hlt' | Hle'];
    destruct (N.eqb_spec ui (normal_size s)) as [E | Hne];
    cbn [returned resize_requests]; try lia.
  - (* above the array part: both raise *)
    split; [discriminate|]. split; [reflexivity|].
    split; [intros [_ ?]; discriminate | lia].
  - (* within the array part: both return *)
    split; [now repeat split|]. split; [discriminate|].
    split; [intros [? _]; discriminate | lia].
Qed.

(** ** After an append *)

(** X3. After an append to a table with an empty hash part (size S below
    half the range of [unsigned int]), index S is within the array part: the
    read check at S returns, and a second write check at S returns without
    asking for a new size and without changing the table. *)
Theorem appended_index_is_in_bounds `{H : LuaHost}
    (resize_ok : ResizeContract) (hash_free : HashFreeNormalized)
    (s : State) (line col line' col' : Z) :
  node (the_table s) = ∅ ->
  (sizearray (the_table s) < 2 ^ (uint_bits - 1))%N ->
  let S := sizearray (the_table s) in
  let s1 := snd (titan_runtime_array_out_of_bounds_write S line col s) in
  fst (titan_runtime_array_out_of_bounds_read S line' col' s1) = Returns tt
  /\ fst (titan_runtime_array_out_of_bounds_write S line' col' s1)
     = Returns tt
  /\ resize_requests
       (new_calls s1
          (snd (titan_runtime_array_out_of_bounds_write S line' col' s1)))
     = []
  /\ the_table (snd (titan_runtime_array_out_of_bounds_write S line' col' s1))
     = the_table s1.
Proof.
  intros Hnode Hlt S s1.
  pose proof (hash_free _ Hnode) as Hn.
  pose proof (normal_size_normalized s Hn) as ES. fold S in ES.
  pose proof (grown_asize_above S Hlt) as Hab.
  assert (Ht1 : the_table s1 = host_resizearray (the_table s) (grown_asize S)).
  { subst s1. rewrite write_table, ES, N.eqb_refl.
    unfold normalized in Hn. now rewrite Hn. }
  assert (Hnode1 : node (the_table s1) = ∅).
  { rewrite Ht1, (resize_node resize_ok); [exact Hnode | fold S; lia]. }
  pose proof (hash_free _ Hnode1) as Hn1.
  assert (ES1 : normal_size s1 = grown_asize S).
  { rewrite (normal_size_normalized s1 Hn1), Ht1.
    apply (resize_sizearray resize_ok). }
  rewrite read_outcome, write_outcome, write_calls, write_table, ES1.
  destruct (N.leb_spec (grown_asize S) S); [lia|].
  destruct (N.ltb_spec (grown_asize S) S); [lia|].
  destruct (N.eqb_spec S (grown_asize S)); [lia|].
  repeat split. exact Hn1.
Qed.

Lemma appended_index_is_in_bounds_witness :
  fst (titan_runtime_array_out_of_bounds_read (H := ref_host) 3 11 2
         (snd (titan_runtime_array_out_of_bounds_write (H := ref_host)
                 3 10 4 three_ints)))
  = Returns tt.
Proof.
  assert (Hlt : (sizearray (the_table three_ints)
                 < 2 ^ (uint_bits (LuaHost := ref_host) - 1))%N)
    by reflexivity.
  exact (proj1
    (appended_index_is_in_bounds (H := ref_host)
       ref_resize_contract ref_hash_free_normalized
       three_ints 10 4 11 2 eq_refl Hlt)).
Defined.

(** ** The doubling past half the range *)

(** X4. When the normalized array part has S slots with
    2^(w-1) <= S < 2^w, w the width of [unsigned int], the write check at
    index S returns, yet the array part it leaves has 2*S - 2^w slots, fewer
    than S: the index that was checked is outside the array part. *)
Theorem wrapped_append_leaves_index_outside `{H : LuaHost}
    (resize_ok : ResizeContract) (s : State) (line col : Z) :
  (2 ^ (uint_bits - 1) <= normal_size s)%N ->
  (normal_size s < 2 ^ uint_bits)%N ->
  let r :=
    titan_runtime_array_out_of_bounds_write (normal_size s) line col s in
  fst r = Returns tt
  /\ sizearray (the_table (snd r)) = (2 * normal_size s - 2 ^ uint_bits)%N
  /\ (sizearray (the_table (snd r)) < normal_size s)%N.
Proof.
  intros Hge Hlt r.
  destruct (append_check resize_ok s line col) as (Ho & _ & Hs & _).
  cbv zeta in Ho, Hs. subst r.
  assert (Hpos : (0 < 2 ^ (uint_bits - 1))%N)
    by (apply N.neq_0_lt_0, N.pow_nonzero; discriminate).
  assert (Hw : (2 ^ uint_bits = 2 * 2 ^ (uint_bits - 1))%N).
  { destruct (N.eq_dec uint_bits 0%N) as [E | E].
    - rewrite E in Hge, Hlt. change (1 <= normal_size s)%N in Hge.
      change (normal_size s < 1)%N in Hlt. lia.
    - replace uint_bits with (N.succ (uint_bits - 1)) at 1 by lia.
      apply N.pow_succ_r'. }
  assert (Hg : grown_asize (normal_size s)
               = (2 * normal_size s - 2 ^ uint_bits)%N).
  { unfold grown_asize, uint_mul.
    destruct (N.eqb_spec (normal_size s) 0); [lia|].
    symmetry. apply (N.mod_unique _ _ 1%N); lia. }
  rewrite Hg in Hs. split; [exact Ho|]. split; [exact Hs|]. lia.
Qed.

Lemma wrapped_append_leaves_index_outside_witness :
  sizearray
    (the_table
       (snd (titan_runtime_array_out_of_bounds_write (H := ref_host)
               (2 ^ 31) 10 4 half_range)))
  = 0%N.
Proof.
  assert (Hge : (2 ^ (uint_bits (LuaHost := ref_host) - 1)
                 <= normal_size (H := ref_host) half_range)%N)
    by now vm_compute.
  assert (Hlt : (normal_size (H := ref_host) half_range
                 < 2 ^ uint_bits (LuaHost := ref_host))%N)
    by reflexivity.
  exact (proj1 (proj2
    (wrapped_append_leaves_index_outside (H := ref_host)
       ref_resize_contract half_range 10 4 Hge Hlt))).
Defined.

(** ** Telling the diagnostics apart *)

(** X5. The bounds checks and the element check never give the same
    outcome: whatever the read check or the write check does (return, or
    raise "outside array part") differs from what
    [titan_runtime_array_type_error] raises ("inside array part" or the
    element type mismatch), for all tables, indices, lines and slots. *)
Theorem bounds_and_element_diagnostics_differ `{H : LuaHost}
    (s s' : State) (ui : N) (line col line' expected_tag : Z)
    (slot : TValue) :
  fst (titan_runtime_array_out_of_bounds_read ui line col s)
  <> fst (titan_runtime_array_type_error line' expected_tag slot s')
  /\ fst (titan_runtime_array_out_of_bounds_write ui line col s)
     <> fst (titan_runtime_array_type_error line' expected_tag slot s').
Proof.
  assert (Hm : forall o : outcome unit,
             o = Returns tt \/ o = Raises (outside_message line col) ->
             o <> fst (titan_runtime_array_type_error
                         line' expected_tag slot s')).
  { intros o Ho E. rewrite array_type_error_outcome in E.
    destruct Ho as [-> | ->]; destruct (isempty slot);
      try discriminate; now inversion E. }
  split; apply Hm.
  - rewrite read_outcome. destruct (normal_size s <=? ui)%N; auto.
  - rewrite write_outcome. destruct (normal_size s <? ui)%N; auto.
Qed.

(** ** What a message says about its arguments *)

Lemma append_cons (c : ascii) (x y : string) :
  String c x ++ y = String c (x ++ y).
Proof. reflexivity. Qed.

(** Two strings cut at the first occurrence of [c]. *)
Lemma cut_at_first (c : ascii) (x y a b : string) :
  lacks c x = true -> lacks c y = true ->
  x ++ String c a = y ++ String c b -> x = y /\ a = b.
Proof.
  revert y. induction x as [|d x IH]; intros [|e y] Hx Hy E.
  - now inversion E.
  - rewrite append_cons in E. inversion E; subst.
    cbn in Hy. now rewrite Ascii.eqb_refl in Hy.
  - rewrite append_cons in E. inversion E; subst.
    cbn in Hx. now rewrite Ascii.eqb_refl in Hx.
  - rewrite !append_cons in E. inversion E; subst.
    cbn in Hx, Hy. apply andb_true_iff in Hx as [_ Hx].
    apply andb_true_iff in Hy as [_ Hy].
    destruct (IH y Hx Hy) as [-> ->]; [assumption | now split].
Qed.

Lemma lacks_pretty_N_char (c : ascii) (n : N) (x : string) :
  lacks c "0123456789-" = true -> lacks c x = true ->
  lacks c (String (pretty_N_char n) x) = true.
Proof.
  intros Hc Hx. cbn [lacks] in Hc. repeat rewrite andb_true_iff in Hc.
  destruct Hc as (H0 & H1 & H2 & H3 & H4 & H5 & H6 & H7 & H8 & H9 & _).
  cbn [lacks]. rewrite Hx, andb_true_r.
  unfold pretty_N_char. repeat case_match; assumption.
Qed.

Lemma lacks_pretty_N_go (c : ascii) (n : N) :
  lacks c "0123456789-" = true ->
  forall x, lacks c x = true -> lacks c (pretty_N_go n x) = true.
Proof.
  intros Hc. induction (N.lt_wf_0 n) as [n _ IH]; intros x Hx.
  destruct (N.eq_dec n 0%N) as [-> | Hn].
  - now rewrite pretty_N_go_0.
  - rewrite pretty_N_go_step by lia. apply IH.
    + apply N.div_lt; lia.
    + now apply lacks_pretty_N_char.
Qed.

(** A decimal numeral holds digits and a minus sign only. *)
Lemma lacks_pretty_Z (c : ascii) (z : Z) :
  lacks c "0123456789-" = true -> lacks c (pretty z) = true.
Proof.
  intros Hc.
  assert (HN : forall n : N, lacks c (pretty n) = true).
  { intros n. unfold pretty, pretty_N. destruct (decide (n = 0%N)).
    - apply (lacks_pretty_N_char c 0 "" Hc eq_refl).
    - now apply lacks_pretty_N_go. }
  destruct z as [|p|p]; unfold pretty, pretty_Z.
  - apply (lacks_pretty_N_char c 0 "" Hc eq_refl).
  - apply HN.
  - rewrite append_cons. cbn [lacks]. rewrite andb_true_iff. split.
    + cbn [lacks] in Hc. repeat rewrite andb_true_iff in Hc. tauto.
    + apply HN.
Qed.

(** X6. The arity diagnostic determines the two counts: two calls of
    [titan_runtime_arity_error] that raise the same message were given the
    same expected and the same received count. *)
Theorem arity_message_identifies_counts
    (s s' : State) (expected received expected' received' : Z) :
  fst (titan_runtime_arity_error expected received s)
  = fst (titan_runtime_arity_error expected' received' s') ->
  expected = expected' /\ received = received'.
Proof.
  unfold titan_runtime_arity_error. rewrite !luaL_error_outcome.
  cbn [lua_pushvfstring Ascii.eqb Bool.eqb]. intros E.
  inversion E as [E']. clear E.
  rewrite !append_empty_r in E'.
  apply cut_at_first in E'; try (now apply lacks_pretty_Z).
  destruct E' as [Ee Er]. split.
  - now apply (inj pretty).
  - apply (inj (append "but received")) in Er.
    injection Er as Er. now apply (inj pretty).
Qed.

Lemma arity_message_identifies_counts_witness :
  fst (titan_runtime_arity_error 2 3 three_ints)
  = fst (titan_runtime_arity_error 2 3 two_ints)
  /\ (2 = 2 /\ 3 = 3)%Z.
Proof.
  split; [reflexivity|].
  exact (arity_message_identifies_counts three_ints two_ints 2 3 2 3 eq_refl).
Defined.

(** X7. The "outside array part" diagnostic determines the source
    position: two calls of [titan_runtime_array_bounds_error] that raise the
    same message were given the same line and the same column. *)
Theorem bounds_message_identifies_position
    (s s' : State) (line col line' col' : Z) :
  fst (titan_runtime_array_bounds_error line col s)
  = fst (titan_runtime_array_bounds_error line' col' s') ->
  line = line' /\ col = col'.
Proof.
  unfold titan_runtime_array_bounds_error. rewrite !luaL_error_outcome.
  cbn [lua_pushvfstring Ascii.eqb Bool.eqb]. intros E.
  inversion E as [E']. clear E.
  rewrite !append_empty_r in E'.
  apply cut_at_first in E'; try (now apply lacks_pretty_Z).
  destruct E' as [El Ec]. split.
  - now apply (inj pretty).
  - apply (inj (append " col")) in Ec.
    injection Ec as Ec. now apply (inj pretty).
Qed.

Lemma bounds_message_identifies_position_witness :
  fst (titan_runtime_array_bounds_error 10 4 three_ints)
  = fst (titan_runtime_array_bounds_error 10 4 two_ints)
  /\ (10 = 10 /\ 4 = 4)%Z.
Proof.
  split; [reflexivity|].
  exact (bounds_message_identifies_position
           three_ints two_ints 10 4 10 4 eq_refl).
Defined.

(** ** Checking twice *)

(** X8. With an idempotent normalization the read check can be repeated:
    the table it leaves is normalized, and a second read check at the same
    index decides as the first did and leaves that table unchanged. *)
Theorem read_check_is_repeatable `{H : LuaHost}
    (idem : NormalizeIdempotent) (s : State) (ui : N) (line col : Z) :
  let s1 := snd (titan_runtime_array_out_of_bounds_read ui line col s) in
  normalized (the_table s1)
  /\ fst (titan_runtime_array_out_of_bounds_read ui line col s1)
     = fst (titan_runtime_array_out_of_bounds_read ui line col s)
  /\ the_table (snd (titan_runtime_array_out_of_bounds_read ui line col s1))
     = the_table s1.
Proof.
  intros s1.
  assert (Ht : the_table s1 = host_normalize_table (the_table s))
    by apply read_table.
  assert (Hn : normalized (the_table s1))
    by (unfold normalized; rewrite Ht; apply idem).
  assert (ES : normal_size s1 = normal_size s).
  { rewrite (normal_size_normalized s1 Hn), Ht. reflexivity. }
  split; [exact Hn|]. split.
  - rewrite !read_outcome, ES. reflexivity.
  - rewrite read_table. exact Hn.
Qed.

Lemma ref_normalize_is_idempotent : NormalizeIdempotent (H := ref_host).
Proof. intros t. apply ref_normalize_idempotent. Qed.

Lemma read_check_is_repeatable_witness :
  fst (titan_runtime_array_out_of_bounds_read (H := ref_host) 0 10 4
         (snd (titan_runtime_array_out_of_bounds_read (H := ref_host)
                 0 10 4 key_in_hash)))
  = fst (titan_runtime_array_out_of_bounds_read (H := ref_host)
           0 10 4 key_in_hash).
Proof.
  exact (proj1 (proj2
    (read_check_is_repeatable (H := ref_host) ref_normalize_is_idempotent
       key_in_hash 0 10 4))).
Defined.

(** ** The resizes of a run of appends *)

Lemma resize_requests_app (cs cs' : list HostCall) :
  resize_requests (cs ++ cs')
  = (resize_requests cs ++ resize_requests cs')%list.
Proof.
  induction cs as [|c cs IH]; [reflexivity|].
  destruct c; cbn; now rewrite IH.
Qed.

Lemma resize_count_succ (k : N) :
  resize_count (k + 1)
  = if (k =? cap_after k)%N then S (resize_count k) else resize_count k.
Proof.
  unfold resize_count, cap_after, pow2_ceil.
  destruct (N.eqb_spec (k + 1) 0); [lia|].
  destruct (N.eqb_spec k 0) as [-> | Hk]; [reflexivity|].
  rewrite N.add_1_r.
  destruct (N.eqb_spec k (2 ^ N.log2_up k)) as [E | Hne].
  - assert (Hs : N.log2_up (N.succ k) = N.succ (N.log2_up k)).
    { apply N.log2_up_eq_succ_iff_pow2; [lia|]. now exists (N.log2_up k). }
    rewrite Hs. lia.
  - destruct (N.log2_up_succ_or k) as [Hs | Hs]; [|now rewrite Hs].
    apply N.log2_up_eq_succ_is_pow2 in Hs. destruct Hs as [b ->].
    rewrite N.log2_up_pow2 in Hne by lia. congruence.
Qed.

Lemma resize_count_le (a b : N) :
  (a <= b)%N -> (resize_count a <= resize_count b)%nat.
Proof.
  intros Hab. unfold resize_count.
  destruct (N.eqb_spec a 0); [lia|].
  destruct (N.eqb_spec b 0); [lia|].
  pose proof (N.log2_up_le_mono a b Hab). lia.
Qed.

Section Resizes.
Context `{H : LuaHost}.
Hypothesis resize_ok : ResizeContract.
Hypothesis hash_free : HashFreeNormalized.

(** At a doubling the size asked for is the next power of two. *)
Lemma grown_asize_at_doubling (k : N) :
  k = cap_after k -> (k < 2 ^ (uint_bits - 1))%N ->
  grown_asize k = (2 ^ N.of_nat (resize_count k))%N.
Proof.
  intros E Hlt. rewrite (grown_asize_exact k Hlt).
  unfold resize_count. unfold cap_after, pow2_ceil in E.
  destruct (N.eqb_spec k 0) as [Hk | Hk]; [reflexivity|].
  rewrite Nat2N.inj_succ, N2Nat.id, N.pow_succ_r'. now rewrite <- E.
Qed.

Lemma write_host_calls (ui : N) (line col : Z) (s : State) :
  exists cs,
    host_calls (snd (titan_runtime_array_out_of_bounds_write ui line col s))
    = (host_calls s ++ cs)%list
    /\ resize_requests cs
       = if (ui =? normal_size s)%N
         then [grown_asize (normal_size s)] else [].
Proof.
  rewrite write_run.
  destruct (N.ltb_spec (normal_size s) ui) as [Hlt | Hge]; cbn [snd].
  - eexists. split.
    + rewrite calls_called, calls_after_normalize, <- app_assoc. reflexivity.
    + destruct (N.eqb_spec ui (normal_size s)); [lia | reflexivity].
  - destruct (ui =? normal_size s)%N; cbn [snd]; eexists; split.
    + rewrite calls_after_resize, calls_after_normalize, <- app_assoc.
      reflexivity.
    + reflexivity.
    + apply calls_after_normalize.
    + reflexivity.
Qed.

Lemma appends_requests (line col : Z) (vs : list TValue) :
  forall (ui : N) (s : State),
  node (the_table s) = ∅ ->
  sizearray (the_table s) = cap_after ui ->
  (ui + N.of_nat (length vs) <= 2 ^ (uint_bits - 1))%N ->
  exists cs,
    host_calls (snd (appends ui line col vs s)) = (host_calls s ++ cs)%list
    /\ resize_requests cs
       = map (fun e => (2 ^ N.of_nat e)%N)
           (seq (resize_count ui)
              (resize_count (ui + N.of_nat (length vs)) - resize_count ui)).
Proof.
  induction vs as [|v vs IH]; intros ui s Hnode Hsize Hlen.
  - exists []. cbn [length N.of_nat]. rewrite N.add_0_r, Nat.sub_diag.
    split; [now rewrite app_nil_r | reflexivity].
  - cbn [length] in Hlen.
    destruct (write_step resize_ok hash_free ui line col s Hnode Hsize
                ltac:(lia)) as (Ho & Hnode1 & Hsize1 & _).
    cbv zeta in Ho, Hnode1, Hsize1.
    destruct (write_host_calls ui line col s) as (c1 & Hc1 & Hr1).
    pose proof (hash_free _ Hnode) as Hn.
    rewrite (normal_size_normalized s Hn), Hsize in Hr1.
    set (s1 := snd (titan_runtime_array_out_of_bounds_write ui line col s))
      in *.
    set (s2 := snd (store_slot ui v s1)).
    assert (Hrun : appends ui line col (v :: vs) s
              = (caps ← appends (ui + 1) line col vs;
                 mret (sizearray (the_table s2) :: caps)) s2).
    { cbn [appends]. rewrite (bind_run_returns _ _ s tt Ho). reflexivity. }
    destruct (appends_run resize_ok hash_free line col vs (ui + 1)%N s2
                Hnode1 Hsize1 ltac:(lia)) as (Ho' & _).
    cbv zeta in Ho'.
    destruct (IH (ui + 1)%N s2 Hnode1 Hsize1 ltac:(lia)) as (c2 & Hc2 & Hr2).
    rewrite Hrun, (bind_run_returns _ _ s2 _ Ho'). cbn [snd mret M_ret].
    exists (c1 ++ c2)%list. split.
    + rewrite Hc2. change (host_calls s2) with (host_calls s1).
      rewrite Hc1. now rewrite app_assoc.
    + rewrite resize_requests_app, Hr1, Hr2. cbn [length].
      replace (ui + N.of_nat (S (length vs)))%N
        with (ui + 1 + N.of_nat (length vs))%N by lia.
      pose proof (resize_count_succ ui) as Hsucc.
      pose proof (resize_count_le (ui + 1) (ui + 1 + N.of_nat (length vs))
                    ltac:(lia)) as Hmono.
      destruct (N.eqb_spec ui (cap_after ui)) as [E | Hne].
      * rewrite Hsucc in *.
        rewrite <- E, (grown_asize_at_doubling ui E) by lia.
        replace (resize_count (ui + 1 + N.of_nat (length vs))
                 - resize_count ui)%nat
          with (S (resize_count (ui + 1 + N.of_nat (length vs))
                   - S (resize_count ui)))%nat by lia.
        reflexivity.
      * rewrite Hsucc. reflexivity.
Qed.

End Resizes.

(** X9. A run of n appends to a table with an empty array part and an
    empty hash part (n at most 2^(w-1)) asks the host for the sizes
    1, 2, 4, ..., one for each power of two up to the least one that is at
    least n, in that order and for no other size: that is log2_up n + 1
    resizes for n appends. *)
Theorem appends_resize_at_powers_of_two `{H : LuaHost}
    (resize_ok : ResizeContract) (hash_free : HashFreeNormalized)
    (s : State) (vs : list TValue) (line col : Z) :
  sizearray (the_table s) = 0%N ->
  node (the_table s) = ∅ ->
  (N.of_nat (length vs) <= 2 ^ (uint_bits - 1))%N ->
  resize_requests (new_calls s (snd (appends 0 line col vs s)))
  = map (fun e => (2 ^ N.of_nat e)%N)
      (seq 0 (resize_count (N.of_nat (length vs)))).
Proof.
  intros Hsize Hnode Hlen.
  destruct (appends_requests resize_ok hash_free line col vs 0%N s
              Hnode Hsize ltac:(lia)) as (cs & Hc & Hr).
  rewrite (new_calls_app _ _ _ Hc), Hr.
  rewrite N.add_0_l. change (resize_count 0) with 0%nat.
  now rewrite Nat.sub_0_r.
Qed.

Lemma appends_resize_at_powers_of_two_witness :
  resize_requests
    (new_calls (start (blank_table 0))
       (snd (appends (H := ref_host) 0 10 4
               (map int_value [1; 2; 3; 4; 5]%Z) (start (blank_table 0)))))
  = [1; 2; 4; 8]%N.
Proof.
  assert (Hlen : (N.of_nat (length (map int_value [1; 2; 3; 4; 5]%Z))
                  <= 2 ^ (uint_bits (LuaHost := ref_host) - 1))%N)
    by now vm_compute.
  exact (appends_resize_at_powers_of_two (H := ref_host)
           ref_resize_contract ref_hash_free_normalized
           (start (blank_table 0)) (map int_value [1; 2; 3; 4; 5]%Z)
           10 4 eq_refl eq_refl Hlen).
Defined.

(** ** Naming the numeric variants *)

(** X10. When the integer and the float tag differ, a mismatch between the
    two is reported with the two names "integer" and "float", whatever name
    the host has for their basic type: an integer where a float is expected
    raises "expected float but found integer", at an argument and at a
    function result alike. *)
Theorem numeric_mismatch_names_both_variants `{H : LuaHost}
    (s : State) (param_name : string) (line v : Z) :
  LUA_TNUMINT <> LUA_TNUMFLT ->
  fst (titan_runtime_argument_type_error param_name line LUA_TNUMFLT
         (mkTValue LUA_TNUMINT v) s)
  = Raises ("wrong type for argument " ++ param_name ++ " at line "
            ++ pretty line ++ ", expected float but found integer")
  /\ fst (titan_runtime_function_return_error line LUA_TNUMFLT
            (mkTValue LUA_TNUMINT v) s)
     = Raises ("wrong type for function result at line " ++ pretty line
               ++ ", expected float but found integer")
  /\ fst (titan_runtime_function_return_error line LUA_TNUMINT
            (mkTValue LUA_TNUMFLT v) s)
     = Raises ("wrong type for function result at line " ++ pretty line
               ++ ", expected integer but found float").
Proof.
  intros Hne.
  assert (Hi : titan_tag_name LUA_TNUMINT = "integer")
    by (unfold titan_tag_name; now rewrite Z.eqb_refl).
  assert (Hf : titan_tag_name LUA_TNUMFLT = "float").
  { unfold titan_tag_name. rewrite Z.eqb_refl.
    destruct (Z.eqb_spec LUA_TNUMFLT LUA_TNUMINT); [congruence | reflexivity]. }
  unfold titan_runtime_argument_type_error,
    titan_runtime_function_return_error, rawtt.
  cbn [tt_]. rewrite Hi, Hf, !luaL_error_outcome.
  split; [|split]; reflexivity.
Qed.

Lemma numeric_mismatch_names_both_variants_witness :
  fst (titan_runtime_function_return_error (H := ref_host) 7 3
         (mkTValue 19 0) three_ints)
  = Raises
      "wrong type for function result at line 7, expected float but found integer".
Proof.
  assert (Hne : LUA_TNUMINT (LuaHost := ref_host)
                <> LUA_TNUMFLT (LuaHost := ref_host)) by discriminate.
  exact (proj1 (proj2
    (numeric_mismatch_names_both_variants (H := ref_host)
       three_ints "x" 7 0 Hne))).
Defined.

(** ** What the write check changes *)

(** X11. The write check changes the table by its normalization, and
    beyond that only when the index equals the size of the normalized array
    part: at every other index, whether the check returns or raises, the
    table it leaves is the normalized table; at that index it is the
    normalized table resized to the size asked for. *)
Theorem write_check_changes_table_only_on_append `{H : LuaHost}
    (s : State) (ui : N) (line col : Z) :
  let t0 := host_normalize_table (the_table s) in
  the_table (snd (titan_runtime_array_out_of_bounds_write ui line col s))
  = (if (ui =? sizearray t0)%N
     then host_resizearray t0
            (if (sizearray t0 =? 0)%N then 1%N
             else ((2 * sizearray t0) mod 2 ^ uint_bits)%N)
     else t0)
  /\ (returned
        (fst (titan_runtime_array_out_of_bounds_write ui line col s))
      = false ->
      the_table (snd (titan_runtime_array_out_of_bounds_write ui line col s))
      = t0).
Proof.
  intros t0. split; [apply write_table|].
  rewrite write_outcome, write_table. fold t0.
  change (normal_size s) with (sizearray t0).
  destruct (N.ltb_spec (sizearray t0) ui); [|discriminate].
  intros _. destruct (N.eqb_spec ui (sizearray t0)); [lia | reflexivity].
Qed.
